(** * commoncrawl_search.py: index lookup, ranged record fetch, HTML report

    A shallow embedding of [src/commoncrawl_search.py].

    Python [str] values are sequences of Unicode code points ([pystr]), so that
    slicing, stripping and splitting count characters as Python does.  [bytes]
    are sequences of octets.  The libraries the script calls ([requests],
    [json], [warcio], [bs4], [urllib]) and the [int] text parser are not part
    of the repository: they are variables of the section [Script], and every
    theorem holds for whatever they answer.  Console output, HTTP requests and
    sleeps are recorded as a trace of events; exceptions are values.  Only
    subclasses of [Exception] are modelled (no [KeyboardInterrupt]). *)

From Stdlib Require Import String Ascii ZArith QArith List Bool Lia.
From Stdlib Require Import DecimalString DecimalPos DecimalZ.
Import ListNotations.
Set Warnings "-register-all".
Local Open Scope Z_scope.
Local Open Scope list_scope.

(** ** Text *)

Definition pystr := list Z.
Definition pybytes := list Z.

(** An ASCII literal of the source as a [str]. *)
Definition lit (s : string) : pystr :=
  map (fun a => Z.of_nat (nat_of_ascii a)) (list_ascii_of_string s).

Fixpoint pystr_eqb (a b : pystr) : bool :=
  match a, b with
  | [], [] => true
  | x :: a', y :: b' => (x =? y) && pystr_eqb a' b'
  | _, _ => false
  end.

(** The text of a [str] of ASCII characters. *)
Definition unlit (s : pystr) : string :=
  string_of_list_ascii (map (fun c => ascii_of_nat (Z.to_nat c)) s).

(** [str(n)] for an [int]. *)
Definition str_int (n : Z) : pystr :=
  lit (NilZero.string_of_int (Z.to_int n)).

(** [str.isspace] for one character: the code points [str.strip()] removes. *)
Definition py_isspace (c : Z) : bool :=
  ((9 <=? c) && (c <=? 13)) || ((28 <=? c) && (c <=? 32))
  || (c =? 133) || (c =? 160) || (c =? 5760)
  || ((8192 <=? c) && (c <=? 8202))
  || (c =? 8232) || (c =? 8233) || (c =? 8239) || (c =? 8287) || (c =? 12288).

Fixpoint lstrip (s : pystr) : pystr :=
  match s with
  | c :: r => if py_isspace c then lstrip r else s
  | [] => []
  end.

Definition rstrip (s : pystr) : pystr := rev (lstrip (rev s)).

(** [s.strip()] *)
Definition strip (s : pystr) : pystr := rstrip (lstrip s).

(** [s.split(sep)] for a one-character separator: never the empty list. *)
Fixpoint split (sep : Z) (s : pystr) : list pystr :=
  match s with
  | [] => [[]]
  | c :: r =>
      if c =? sep then [] :: split sep r
      else match split sep r with
           | l :: ls => (c :: l) :: ls
           | [] => [[c]]
           end
  end.

Definition LF : Z := 10.

(** ** UTF-8 decoding: [bytes.decode('utf-8', errors=...)]

    The decoder walks the bytes; at each position it either reads one
    well-formed sequence or reports an error range (the longest prefix that
    could still have started a well-formed sequence, at least one byte).  The
    error handler decides what an error range becomes. *)

Inductive utf8_item :=
| Scalar (c : Z)          (* a decoded code point *)
| Malformed (n : nat).    (* an error range of [n] bytes *)

Definition is_continuation (b : Z) : bool := Z.land b 0xC0 =? 0x80.

Definition payload (b : Z) : Z := Z.land b 0x3F.

(** One step at the head of the input: what was read, and how many bytes. *)
Definition utf8_step (bs : pybytes) : option (utf8_item * nat) :=
  match bs with
  | [] => None
  | ch :: r =>
      if ch <? 0x80 then Some (Scalar ch, 1%nat)
      else if ch <? 0xC2 then Some (Malformed 1, 1%nat)
      else if ch <? 0xE0 then
        match r with
        | [] => Some (Malformed 1, 1%nat)
        | ch2 :: _ =>
            if is_continuation ch2
            then Some (Scalar (Z.lor (Z.shiftl (Z.land ch 0x1F) 6) (payload ch2)), 2%nat)
            else Some (Malformed 1, 1%nat)
        end
      else if ch <? 0xF0 then
        match r with
        | [] => Some (Malformed 1, 1%nat)
        | ch2 :: r2 =>
            if negb (is_continuation ch2)
               || (if ch2 <? 0xA0 then ch =? 0xE0 else ch =? 0xED)
            then Some (Malformed 1, 1%nat)
            else match r2 with
                 | [] => Some (Malformed 2, 2%nat)
                 | ch3 :: _ =>
                     if is_continuation ch3
                     then Some (Scalar (Z.lor (Z.shiftl (Z.land ch 0x0F) 12)
                                          (Z.lor (Z.shiftl (payload ch2) 6) (payload ch3))),
                                3%nat)
                     else Some (Malformed 2, 2%nat)
                 end
        end
      else if ch <? 0xF5 then
        match r with
        | [] => Some (Malformed 1, 1%nat)
        | ch2 :: r2 =>
            if negb (is_continuation ch2)
               || (if ch2 <? 0x90 then ch =? 0xF0 else ch =? 0xF4)
            then Some (Malformed 1, 1%nat)
            else match r2 with
                 | [] => Some (Malformed 2, 2%nat)
                 | ch3 :: r3 =>
                     if negb (is_continuation ch3) then Some (Malformed 2, 2%nat)
                     else match r3 with
                          | [] => Some (Malformed 3, 3%nat)
                          | ch4 :: _ =>
                              if is_continuation ch4
                              then Some (Scalar
                                           (Z.lor (Z.shiftl (Z.land ch 0x07) 18)
                                              (Z.lor (Z.shiftl (payload ch2) 12)
                                                 (Z.lor (Z.shiftl (payload ch3) 6)
                                                    (payload ch4)))),
                                         4%nat)
                              else Some (Malformed 3, 3%nat)
                          end
                 end
        end
      else Some (Malformed 1, 1%nat)
  end.

Fixpoint utf8_items_fuel (fuel : nat) (bs : pybytes) : list utf8_item :=
  match fuel with
  | O => []
  | S fuel' =>
      match utf8_step bs with
      | None => []
      | Some (it, n) => it :: utf8_items_fuel fuel' (skipn n bs)
      end
  end.

(** Every step reads at least one byte, so the length of the input is fuel
    enough (lemma [utf8_items_fuel_enough]). *)
Definition utf8_items (bs : pybytes) : list utf8_item :=
  utf8_items_fuel (length bs) bs.

(** [bs.decode('utf-8', errors='ignore')]: error ranges are skipped. *)
Definition decode_utf8_ignore (bs : pybytes) : pystr :=
  flat_map (fun it => match it with Scalar c => [c] | Malformed _ => [] end)
           (utf8_items bs).

Definition REPLACEMENT_CHARACTER : Z := 0xFFFD.

(** [bs.decode('utf-8', errors='replace')]: what the specification describes;
    every error range becomes one U+FFFD. *)
Definition decode_utf8_replace (bs : pybytes) : pystr :=
  map (fun it => match it with Scalar c => c | Malformed _ => REPLACEMENT_CHARACTER end)
      (utf8_items bs).

(** The number of error ranges the decoder meets in [bs]. *)
Definition error_ranges (bs : pybytes) : nat :=
  List.length (filter (fun it => match it with Malformed _ => true | Scalar _ => false end)
                      (utf8_items bs)).

(** ** Values, exceptions, events *)

(** The exceptions the script tells apart: its [except] clauses name
    [requests.exceptions.Timeout] and [requests.exceptions.HTTPError]; every
    other [Exception] is known by its class name. *)
Inductive exn :=
| Timeout
| HTTPError (status : Z)
| OtherError (cls : string).

Inductive result (A : Type) :=
| Ok (a : A)
| Raise (e : exn).
Arguments Ok {A} a.
Arguments Raise {A} e.

Definition is_ok {A} (r : result A) : bool :=
  match r with Ok _ => true | Raise _ => false end.

(** A Python [float]: finite ones are rationals. *)
Inductive pyfloat :=
| FNan
| FInf (negative : bool)
| FFinite (q : Q).

(** What [json.loads] returns.  A [JDict] lists its items in insertion order;
    [dict_lookup] takes the first item with the key. *)
Inductive json :=
| JNull
| JBool (b : bool)
| JInt (n : Z)
| JFloat (f : pyfloat)
| JStr (s : pystr)
| JList (items : list json)
| JDict (items : list (pystr * json)).

(** Truth value of an object in an [if]. *)
Definition truthy (v : json) : bool :=
  match v with
  | JNull => false
  | JBool b => b
  | JInt n => negb (n =? 0)
  | JFloat FNan => true
  | JFloat (FInf _) => true
  | JFloat (FFinite q) => negb (Qnum q =? 0)
  | JStr s => negb (Nat.eqb (length s) 0)
  | JList l => negb (Nat.eqb (length l) 0)
  | JDict l => negb (Nat.eqb (length l) 0)
  end.

Fixpoint dict_lookup {V} (key : pystr) (items : list (pystr * V)) : option V :=
  match items with
  | [] => None
  | (k, v) :: r => if pystr_eqb k key then Some v else dict_lookup key r
  end.

(** [record.get(key)]: [None] for a missing key; only a dict has [.get]. *)
Definition py_get (record : json) (key : pystr) : result json :=
  match record with
  | JDict items =>
      match dict_lookup key items with
      | Some v => Ok v
      | None => Ok JNull
      end
  | _ => Raise (OtherError "AttributeError")
  end.

(** One piece of an f-string: literal text of the source, or a formatted
    value.  [FRepr] and [FExn] stand for [str()] of a parsed JSON value and of
    an exception. *)
Inductive frag :=
| FLit (s : string)
| FNl
| FStr (s : pystr)
| FInt (n : Z)
| FRepr (v : json)
| FExn (e : exn).

Record request := mkRequest {
  req_url : pystr;
  req_headers : list (pystr * pystr);
  req_stream : bool;
  req_timeout : Z
}.

Inductive event :=
| Print (line : list frag)
| Get (r : request)
| Sleep (seconds : Z).

(** What [ArchiveIterator(response.raw)] yields next: a record with its type
    and what reading its content stream gives, or an exception. *)
Inductive warc_item :=
| WarcRecord (rec_type : pystr) (content : result pybytes)
| WarcError (e : exn).

Record response := mkResponse {
  status_code : Z;
  text : pystr;
  raw : list warc_item
}.

(** ** Parsed HTML *)

Inductive string_class :=
| NavigableString | CData | Comment | Declaration | Doctype
| ProcessingInstruction | Script | Stylesheet | TemplateString.

Inductive node :=
| Str (cls : string_class) (s : pystr)
| Tag (name : pystr) (attrs : list (pystr * pystr)) (contents : list node).

(** The strings [get_text] collects: [NavigableString] and [CData]. *)
Definition interesting (cls : string_class) : bool :=
  match cls with
  | NavigableString | CData => true
  | _ => false
  end.

(** ** Computations: a history of events in, new events and a result out *)

Definition io (A : Type) : Type := list event -> list event * result A.

Definition ret {A} (a : A) : io A := fun _ => ([], Ok a).

Definition raise {A} (e : exn) : io A := fun _ => ([], Raise e).

Definition bind {A B} (m : io A) (f : A -> io B) : io B :=
  fun h =>
    match m h with
    | (ev, Ok a) => let (ev', r) := f a (h ++ ev) in (ev ++ ev', r)
    | (ev, Raise e) => (ev, Raise e)
    end.

Definition emit (e : event) : io unit := fun _ => ([e], Ok tt).

Definition lift {A} (r : result A) : io A := fun _ => ([], r).

(** [try: m  except ...: handler] *)
Definition try_except {A} (m : io A) (handler : exn -> io A) : io A :=
  fun h =>
    match m h with
    | (ev, Ok a) => (ev, Ok a)
    | (ev, Raise e) => let (ev', r) := handler e (h ++ ev) in (ev ++ ev', r)
    end.

Declare Scope io_scope.
Delimit Scope io_scope with io.
Notation "x <- m ;; k" := (bind m (fun x => k))
  (at level 61, m at next level, right associativity) : io_scope.
Notation "m ;; k" := (bind m (fun _ => k))
  (at level 61, right associativity) : io_scope.
Local Open Scope io_scope.

Definition print (line : list frag) : io unit := emit (Print line).

Definition time_sleep (seconds : Z) : io unit := emit (Sleep seconds).

(** [for x in l: body x] *)
Fixpoint for_each {A} (body : A -> io unit) (l : list A) : io unit :=
  match l with
  | [] => ret tt
  | x :: r => body x ;; for_each body r
  end.

(** [[f(x) for x in l]] for an [f] that may raise. *)
Fixpoint comprehension {A B} (f : A -> result B) (l : list A) : result (list B) :=
  match l with
  | [] => Ok []
  | x :: r =>
      match f x with
      | Raise e => Raise e
      | Ok y =>
          match comprehension f r with
          | Raise e => Raise e
          | Ok ys => Ok (y :: ys)
          end
      end
  end.

(** [response.raise_for_status()] *)
Definition raise_for_status (r : response) : io unit :=
  if (400 <=? status_code r) && (status_code r <? 600)
  then raise (HTTPError (status_code r))
  else ret tt.

(** [find] looks at the descendants in document order. *)
Definition first_some {A B} (f : A -> option B) : list A -> option B :=
  fix go (l : list A) : option B :=
    match l with
    | [] => None
    | x :: r => match f x with Some y => Some y | None => go r end
    end.

Fixpoint find_tag (p : pystr -> list (pystr * pystr) -> bool) (n : node) : option node :=
  match n with
  | Str _ _ => None
  | Tag name attrs contents =>
      if p name attrs then Some n else first_some (find_tag p) contents
  end.

(** [element.find(...)] over the contents of [element]. *)
Definition find (p : pystr -> list (pystr * pystr) -> bool) (contents : list node)
  : option node :=
  first_some (find_tag p) contents.

(** The strings below a node, as [_all_strings(strip)] yields them. *)
Fixpoint all_strings (strip_ : bool) (n : node) : list pystr :=
  match n with
  | Str cls s =>
      if interesting cls then
        if strip_ then
          match strip s with
          | [] => []
          | s' => [s']
          end
        else [s]
      else []
  | Tag _ _ contents => flat_map (all_strings strip_) contents
  end.

(** [element.get_text(strip=strip_)] over the contents of [element]. *)
Definition get_text (strip_ : bool) (contents : list node) : pystr :=
  concat (flat_map (all_strings strip_) contents).

(** [tag[key]] *)
Definition tag_getitem (t : node) (key : pystr) : result pystr :=
  match t with
  | Tag _ attrs _ =>
      match dict_lookup key attrs with
      | Some v => Ok v
      | None => Raise (OtherError "KeyError")
      end
  | Str _ _ => Raise (OtherError "TypeError")
  end.

Definition tag_contents (t : node) : list node :=
  match t with
  | Tag _ _ contents => contents
  | Str _ _ => []
  end.

(** [find('title')] *)
Definition named_title (name : pystr) (_ : list (pystr * pystr)) : bool :=
  pystr_eqb name (lit "title").

(** [find('meta', attrs={'property': 'og:url'})] *)
Definition meta_og_url (name : pystr) (attrs : list (pystr * pystr)) : bool :=
  pystr_eqb name (lit "meta")
  && match dict_lookup (lit "property") attrs with
     | Some v => pystr_eqb v (lit "og:url")
     | None => false
     end.

(** The tags of a document, in document order. *)
Fixpoint tags_of (n : node) : list (pystr * list (pystr * pystr)) :=
  match n with
  | Str _ _ => []
  | Tag name attrs contents => (name, attrs) :: flat_map tags_of contents
  end.

(** No element of the document satisfies [p]. *)
Definition no_element (p : pystr -> list (pystr * pystr) -> bool) (contents : list node)
  : Prop :=
  forall name attrs, In (name, attrs) (flat_map tags_of contents) -> p name attrs = false.

(** ** Reading a decimal numeral and a [Range] header

    [int_of_decimal] is [int(s)] on ASCII numerals: an optional minus sign and
    decimal digits.  [parse_byte_range] reads the value [bytes=first-last] of a
    [Range] header as the server does. *)

Definition int_of_decimal (s : pystr) : result Z :=
  if forallb (fun c => (0 <=? c) && (c <? 128)) s then
    match NilZero.int_of_string (unlit s) with
    | Some d => Ok (Z.of_int d)
    | None => Raise (OtherError "ValueError")
    end
  else Raise (OtherError "ValueError").

Fixpoint strip_prefix (prefix s : pystr) : option pystr :=
  match prefix, s with
  | [], _ => Some s
  | p :: prefix', c :: s' => if p =? c then strip_prefix prefix' s' else None
  | _ :: _, [] => None
  end.

Definition HYPHEN : Z := 45.

Definition parse_byte_range (value : pystr) : option (Z * Z) :=
  match strip_prefix (lit "bytes=") value with
  | Some spec =>
      match split HYPHEN spec with
      | [first; last] =>
          match int_of_decimal first, int_of_decimal last with
          | Ok a, Ok b => Some (a, b)
          | _, _ => None
          end
      | _ => None
      end
  | None => None
  end.

(** Lines of the driver. *)
Definition searching_line (query : pystr) : event :=
  Print [FNl; FLit "Поиск по запросу: "; FStr query].

Definition found_line (records : list json) (query : pystr) : event :=
  Print [FLit "Найдено "; FInt (Z.of_nat (List.length records));
         FLit " записей для "; FStr query].

Definition incomplete_line (record : json) : event :=
  Print [FLit "Недостаточно данных для извлечения записи: "; FRepr record].

(** An ASCII decimal digit. *)
Definition digit (c : Z) : Prop := 48 <= c <= 57.

Definition is_get (ev : event) : bool :=
  match ev with Get _ => true | _ => false end.

(** ** Library answers used in worked scenarios

    Each is the behaviour of the library on the inputs named, and nothing
    more: a table of documents with their parse, a network that always gives
    the same answer. *)

Definition DQUOTE : Z := 34.

Definition quoted (s : string) : pystr := DQUOTE :: lit s ++ [DQUOTE].

(** [json.loads] on the listed documents; anything else (the empty string
    too) is rejected. *)
Definition loads_from (known : list (pystr * json)) (s : pystr) : result json :=
  match dict_lookup s known with
  | Some v => Ok v
  | None => Raise (OtherError "JSONDecodeError")
  end.

(** [html.parser] on text without markup: one string. *)
Definition soup_of_text (content : pystr) : result (list node) :=
  Ok [Str NavigableString content].

(** [html.parser] on the listed documents; other text is taken as plain. *)
Definition soup_from (known : list (pystr * list node)) (content : pystr)
  : result (list node) :=
  match dict_lookup content known with
  | Some contents => Ok contents
  | None => soup_of_text content
  end.

(** A network that gives the same answer to every request. *)
Definition always (answer : result response) : list event -> request -> result response :=
  fun _ _ => answer.

(** [quote_plus] on letters, digits and [_.-~], which it leaves alone. *)
Definition quote_plus_unreserved (s : pystr) : pystr := s.

(** [str(v)] is not needed where every formatted value is a [str]. *)
Definition repr_unused (_ : json) : pystr := [].

(** A network that answers index requests (not streamed) with one answer
    and archive requests (streamed) with another, every time. *)
Definition network (index_answer archive_answer : result response)
  : list event -> request -> result response :=
  fun _ r => if req_stream r then archive_answer else index_answer.

(** One line of an index response, and the object [json.loads] makes of it;
    the three values are given as JSON text and as parsed values. *)
Definition record_line (filename offset length : pystr) : pystr :=
  lit "{" ++ quoted "filename" ++ lit ": " ++ filename ++ lit ", "
    ++ quoted "offset" ++ lit ": " ++ offset ++ lit ", "
    ++ quoted "length" ++ lit ": " ++ length ++ lit "}".

Definition record_value (filename offset length : json) : json :=
  JDict [(lit "filename", filename); (lit "offset", offset); (lit "length", length)].

Definition warc_name : string := "crawl-data/CC-MAIN-2024-33/a.warc.gz".

(** A record as the index gives them: three strings. *)
Definition good_line : pystr := record_line (quoted warc_name) (quoted "1000") (quoted "500").
Definition good_record : json :=
  record_value (JStr (lit warc_name)) (JStr (lit "1000")) (JStr (lit "500")).

(** A record whose offset is not a numeral. *)
Definition bad_line : pystr := record_line (quoted warc_name) (quoted "abc") (quoted "500").
Definition bad_record : json :=
  record_value (JStr (lit warc_name)) (JStr (lit "abc")) (JStr (lit "500")).

(** A record whose offset is the number zero. *)
Definition zero_line : pystr := record_line (quoted warc_name) (lit "0") (lit "500").
Definition zero_record : json :=
  record_value (JStr (lit warc_name)) (JInt 0) (JInt 500).

Definition sample_loads : pystr -> result json :=
  loads_from [(good_line, good_record); (bad_line, bad_record); (zero_line, zero_record)].

(** An index response with the given body. *)
Definition index_response (body : pystr) : result response :=
  Ok (mkResponse 200 body []).

(** An archive response with one [response] record of the given body. *)
Definition archive_response (body : pybytes) : result response :=
  Ok (mkResponse 206 [] [WarcRecord (lit "warcinfo") (Ok []);
                         WarcRecord (lit "response") (Ok body)]).

(** The page of the end-to-end scenario and its parse. *)
Definition test_page : pystr :=
  lit "<html><head><title>Test</title><meta property=" ++ quoted "og:url"
    ++ lit " content=" ++ quoted "http://x" ++ lit "></head><body>Hello world</body></html>".

Definition test_soup : list node :=
  [Tag (lit "html") []
     [Tag (lit "head") []
        [Tag (lit "title") [] [Str NavigableString (lit "Test")];
         Tag (lit "meta") [(lit "property", lit "og:url"); (lit "content", lit "http://x")] []];
      Tag (lit "body") [] [Str NavigableString (lit "Hello world")]]].

(** A page whose [og:url] element has no [content] attribute. *)
Definition bare_meta_page : pystr :=
  lit "<html><head><meta property=" ++ quoted "og:url" ++ lit "></head></html>".

Definition bare_meta_soup : list node :=
  [Tag (lit "html") [] [Tag (lit "head") [] [Tag (lit "meta") [(lit "property", lit "og:url")] []]]].

Definition sample_parser : pystr -> result (list node) :=
  soup_from [(test_page, test_soup); (bare_meta_page, bare_meta_soup)].

(** A parser that knows the page of the end-to-end scenario only. *)
Definition test_parser : pystr -> result (list node) :=
  soup_from [(test_page, test_soup)].

(** A body with one byte that is not UTF-8 between two letters. *)
Definition broken_body : pybytes := [0x61; 0xFF; 0x62].

(** Two records with a blank line between them. *)
Definition blank_line_body : pystr := good_line ++ [LF; LF] ++ good_line.

(** The page of the end-to-end scenario as bytes: it is ASCII. *)
Definition test_page_bytes : pybytes := test_page.

(** ** The script *)

Definition SERVER : pystr := lit "http://index.commoncrawl.org/".

Definition INDEX_NAME : pystr := lit "CC-MAIN-2024-33".

Section Script.

(** [urllib.parse.quote_plus] on a text query. *)
Variable quote_plus : pystr -> pystr.
(** [requests.get]: the answer of the network to a request, which may
    depend on everything that happened before. *)
Variable requests_get : list event -> request -> result response.
(** [json.loads] *)
Variable json_loads : pystr -> result json.
(** [int(s)] for a [str]. *)
Variable int_of_str : pystr -> result Z.
(** [str(v)] for a value that is not a [str]. *)
Variable py_repr : json -> pystr.
(** [BeautifulSoup(content, 'html.parser')]: the contents of the document. *)
Variable BeautifulSoup : pystr -> result (list node).

Definition http_get (r : request) : io response :=
  fun h => ([Get r], requests_get h r).

(** [int(v)] *)
Definition py_int (v : json) : result Z :=
  match v with
  | JStr s => int_of_str s
  | JInt n => Ok n
  | JBool b => Ok (if b then 1 else 0)
  | JFloat FNan => Raise (OtherError "ValueError")
  | JFloat (FInf _) => Raise (OtherError "OverflowError")
  | JFloat (FFinite q) => Ok (Z.quot (Qnum q) (Z.pos (Qden q)))
  | JNull | JList _ | JDict _ => Raise (OtherError "TypeError")
  end.

(** A value formatted in an f-string. *)
Definition format_value (v : json) : pystr :=
  match v with
  | JStr s => s
  | _ => py_repr v
  end.

(** Lines 17-43.  The [try] body gives [Some] of what it returns; a handler
    gives [None] and control reaches the final [return []]. *)
Definition search_cc_index (query index_name : pystr) : io (list json) :=
  let encoded_query := quote_plus query in
  let index_url :=
    SERVER ++ index_name ++ lit "-index?url=" ++ encoded_query ++ lit "&output=json" in
  returned <-
    try_except
      (response <- http_get (mkRequest index_url [] false 30);;
       raise_for_status response;;
       let records := split LF (strip (text response)) in
       parsed <- lift (comprehension json_loads records);;
       ret (Some parsed))
      (fun e =>
         match e with
         | Timeout =>
             print [FLit "Тайм-аут при выполнении запроса для "; FStr query];;
             ret None
         | HTTPError _ =>
             print [FLit "HTTP ошибка при выполнении запроса для "; FStr query;
                    FLit ": "; FExn e];;
             ret None
         | OtherError _ =>
             print [FLit "Ошибка при выполнении запроса для "; FStr query;
                    FLit ": "; FExn e];;
             ret None
         end);;
  match returned with
  | Some parsed => ret parsed
  | None => ret []
  end.

(** Lines 72-75: the first record of type [response], decoded. *)
Fixpoint scan_records (stream : list warc_item) : result (option pystr) :=
  match stream with
  | [] => Ok None
  | WarcError e :: _ => Raise e
  | WarcRecord rec_type content :: rest =>
      if pystr_eqb rec_type (lit "response") then
        match content with
        | Ok bytes => Ok (Some (decode_utf8_ignore bytes))
        | Raise e => Raise e
        end
      else scan_records rest
  end.

(** Lines 46-85.  [None] is Python's [None]. *)
Definition fetch_single_record (warc_record_filename : pystr) (offset length : Z)
  : io (option pystr) :=
  let s3_url := lit "https://data.commoncrawl.org/" ++ warc_record_filename in
  let byte_range :=
    lit "bytes=" ++ str_int offset ++ lit "-" ++ str_int (offset + length - 1) in
  try_except
    (response <- http_get (mkRequest s3_url [(lit "Range", byte_range)] true 30);;
     raise_for_status response;;
     if status_code response =? 206 then
       lift (scan_records (raw response))
     else
       print [FLit "Не удалось получить данные: "; FInt (status_code response)];;
       ret None)
    (fun e =>
       match e with
       | Timeout =>
           print [FLit "Тайм-аут при извлечении данных из "; FStr warc_record_filename];;
           ret None
       | HTTPError _ =>
           print [FLit "HTTP ошибка при извлечении данных из ";
                  FStr warc_record_filename; FLit ": "; FExn e];;
           ret None
       | OtherError _ =>
           print [FLit "Ошибка при извлечении данных из ";
                  FStr warc_record_filename; FLit ": "; FExn e];;
           ret None
       end).

(** Lines 88-108. *)
Definition process_content (content query : pystr) : io unit :=
  soup <- lift (BeautifulSoup content);;
  let title := find named_title soup in
  let title_text :=
    match title with
    | Some t => FStr (get_text true (tag_contents t))
    | None => FLit "Без заголовка"
    end in
  print [FNl; FLit "--- Результат для запроса: "; FStr query; FLit " ---"];;
  print [FLit "Заголовок страницы: "; title_text];;
  url <- match find meta_og_url soup with
         | Some t => (v <- lift (tag_getitem t (lit "content"));; ret (FStr v))
         | None => ret (FLit "Неизвестно")
         end;;
  print [FLit "URL: "; url];;
  print [FLit "--- Начало контента страницы ---"];;
  print [FStr (firstn 1000 (get_text false soup))];;
  print [FLit "--- Конец контента страницы ---"; FNl].

(** Lines 131-145: the body of the loop over the records of one query. *)
Definition record_body (query : pystr) (record : json) : io unit :=
  warc_filename <- lift (py_get record (lit "filename"));;
  offset <- lift (py_get record (lit "offset"));;
  length <- lift (py_get record (lit "length"));;
  (if truthy warc_filename && truthy offset && truthy length then
     offset_int <- lift (py_int offset);;
     length_int <- lift (py_int length);;
     content <- fetch_single_record (format_value warc_filename) offset_int length_int;;
     match content with
     | Some ((_ :: _) as html) => process_content html query
     | _ => print [FLit "Не удалось извлечь контент для записи: "; FRepr record]
     end
   else
     print [FLit "Недостаточно данных для извлечения записи: "; FRepr record]);;
  time_sleep 1.

(** Lines 123-147: the body of the loop over the queries of one group. *)
Definition query_body (index_name query : pystr) : io unit :=
  print [FNl; FLit "Поиск по запросу: "; FStr query];;
  records <- search_cc_index query index_name;;
  match records with
  | _ :: _ =>
      print [FLit "Найдено "; FInt (Z.of_nat (List.length records));
             FLit " записей для "; FStr query];;
      for_each (record_body query) (firstn 5 records)
  | [] => print [FLit "Результаты не найдены для "; FStr query]
  end.

(** Lines 120-149: the body of the loop over the groups. *)
Definition group_body (index_name : pystr) (group : pystr * list pystr) : io unit :=
  let (group_name, query_list) := group in
  print [FNl; FLit "=== Поиск для группы: "; FStr group_name; FLit " ==="; FNl];;
  for_each (query_body index_name) query_list;;
  print [FNl; FLit "=== Поиск для группы "; FStr group_name; FLit " завершен ==="].

(** Lines 111-149.  [queries.items()] in insertion order. *)
Definition search_and_print_results
           (queries : list (pystr * list pystr)) (index_name : pystr) : io unit :=
  for_each (group_body index_name) queries.

(** *** What the claims speak of *)

(** The request of [search_cc_index]. *)
Definition index_request (query index_name : pystr) : request :=
  mkRequest
    (lit "http://index.commoncrawl.org/" ++ index_name ++ lit "-index?url="
       ++ quote_plus query ++ lit "&output=json")
    [] false 30.

(** The request of [fetch_single_record]. *)
Definition record_request (filename : pystr) (offset length : Z) : request :=
  mkRequest
    (lit "https://data.commoncrawl.org/" ++ filename)
    [(lit "Range", lit "bytes=" ++ str_int offset ++ lit "-" ++ str_int (offset + length - 1))]
    true 30.

Definition error_status (r : response) : Prop :=
  400 <= status_code r < 600.

(** The lines of a successful index response, as the code cuts them. *)
Definition index_lines (r : response) : list pystr :=
  split LF (strip (text r)).

(** The index request fails with [e]: the request raises (a timeout or
    anything else), the status is an error status, or a line is rejected
    by [json.loads]. *)
Inductive index_request_fails (h : list event) (req : request) : exn -> Prop :=
| index_get_raises e :
    requests_get h req = Raise e -> index_request_fails h req e
| index_error_status resp :
    requests_get h req = Ok resp -> error_status resp ->
    index_request_fails h req (HTTPError (status_code resp))
| index_line_rejected resp e :
    requests_get h req = Ok resp -> ~ error_status resp ->
    comprehension json_loads (index_lines resp) = Raise e ->
    index_request_fails h req e.

Definition other_record (it : warc_item) : Prop :=
  exists ty content, it = WarcRecord ty content /\ ty <> lit "response".

(** Iterating the archive raises [e] before a response record is read. *)
Inductive stream_breaks : list warc_item -> exn -> Prop :=
| breaks_iterating e rest : stream_breaks (WarcError e :: rest) e
| breaks_reading e rest :
    stream_breaks (WarcRecord (lit "response") (Raise e) :: rest) e
| breaks_later it rest e :
    other_record it -> stream_breaks rest e -> stream_breaks (it :: rest) e.

(** The record fetch fails: the request raises, the status is not 206, the
    container has no record tagged [response], or reading it raises. *)
Inductive record_fetch_fails (h : list event) (req : request) : Prop :=
| fetch_get_raises e :
    requests_get h req = Raise e -> record_fetch_fails h req
| fetch_not_206 resp :
    requests_get h req = Ok resp -> status_code resp <> 206 ->
    record_fetch_fails h req
| fetch_no_response_record resp :
    requests_get h req = Ok resp ->
    (forall content, ~ In (WarcRecord (lit "response") content) (raw resp)) ->
    record_fetch_fails h req
| fetch_stream_breaks resp e :
    requests_get h req = Ok resp -> stream_breaks (raw resp) e ->
    record_fetch_fails h req.

(** The specification's reading of the index response: the body split by
    newline, the non-empty lines parsed. *)
Definition spec_index_records (body : pystr) : result (list json) :=
  comprehension json_loads
    (filter (fun line => negb (Nat.eqb (List.length line) 0)) (split LF body)).

(** An index record the driver can use: a JSON object whose offset and
    length, when its three fields are all truthy, are accepted by [int]. *)
Definition usable_record (v : json) : Prop :=
  exists items,
    v = JDict items /\
    forall f o l,
      py_get v (lit "filename") = Ok f ->
      py_get v (lit "offset") = Ok o ->
      py_get v (lit "length") = Ok l ->
      truthy f && truthy o && truthy l = true ->
      is_ok (py_int o) = true /\ is_ok (py_int l) = true.

(** An index record with a field missing or falsy. *)
Definition incomplete_record (v : json) : Prop :=
  exists items f o l,
    v = JDict items /\
    py_get v (lit "filename") = Ok f /\
    py_get v (lit "offset") = Ok o /\
    py_get v (lit "length") = Ok l /\
    (truthy f = false \/ truthy o = false \/ truthy l = false).

(** *** Text and computations: basic facts *)

Lemma pystr_eqb_eq (a b : pystr) : pystr_eqb a b = true <-> a = b.
Proof.
  revert b. induction a as [|x a IH]; intros [|y b]; cbn; try (split; congruence).
  rewrite andb_true_iff, Z.eqb_eq, IH. split; [intros [-> ->] | intros [= -> ->]]; auto.
Qed.

Lemma pystr_eqb_refl (a : pystr) : pystr_eqb a a = true.
Proof. now apply pystr_eqb_eq. Qed.

Lemma pystr_eqb_neq (a b : pystr) : a <> b -> pystr_eqb a b = false.
Proof.
  intros N. destruct (pystr_eqb a b) eqn:E; [|reflexivity].
  now apply pystr_eqb_eq in E.
Qed.

Lemma error_status_dec (r : response) :
  (400 <=? status_code r) && (status_code r <? 600) = true <-> error_status r.
Proof. unfold error_status. lia. Qed.

Lemma error_status_no (r : response) :
  ~ error_status r -> (400 <=? status_code r) && (status_code r <? 600) = false.
Proof. unfold error_status. lia. Qed.

Ltac run :=
  unfold try_except, bind, http_get, raise_for_status, print, time_sleep,
    emit, ret, raise, lift; cbn [fst snd app].

(** *** Index query *)

Lemma search_cc_index_never_raises query index_name h :
  is_ok (snd (search_cc_index query index_name h)) = true.
Proof.
  unfold search_cc_index. run.
  destruct (requests_get h _) as [resp|e].
  - destruct ((400 <=? status_code resp) && (status_code resp <? 600)); cbn.
    + reflexivity.
    + destruct (comprehension json_loads _) as [parsed|e]; cbn;
        [reflexivity | destruct e; reflexivity].
  - destruct e; reflexivity.
Qed.

Lemma index_failure_outcome query index_name h e :
  index_request_fails h (index_request query index_name) e ->
  exists line,
    In (FStr query) line /\
    search_cc_index query index_name h =
      ([Get (index_request query index_name); Print line], Ok []).
Proof.
  intros F. unfold search_cc_index, SERVER.
  fold (index_request query index_name). run.
  destruct F as [e G | resp G S | resp e G S P]; rewrite G; cbn.
  - destruct e; eexists; (split; [|reflexivity]); cbn; auto.
  - apply error_status_dec in S. rewrite S. cbn.
    eexists; (split; [|reflexivity]); cbn; auto.
  - rewrite (error_status_no _ S). cbn. unfold index_lines in P. rewrite P. cbn.
    destruct e; eexists; (split; [|reflexivity]); cbn; auto.
Qed.

(** C4.  The index request fails open: whenever the request times out,
    answers with an HTTP error status, or any other exception occurs (in the
    request or while the lines are parsed), [search_cc_index] prints one
    line that names the query and returns the empty list; and for every
    query and index name it returns a list, it does not raise. *)
Theorem search_cc_index_fails_open query index_name h :
  is_ok (snd (search_cc_index query index_name h)) = true /\
  forall e,
    index_request_fails h (index_request query index_name) e ->
    exists line,
      In (FStr query) line /\
      search_cc_index query index_name h =
        ([Get (index_request query index_name); Print line], Ok []).
Proof.
  split; [apply search_cc_index_never_raises | apply index_failure_outcome].
Qed.

Lemma comprehension_Forall2 {A B} (f : A -> result B) l ys :
  comprehension f l = Ok ys <-> Forall2 (fun x y => f x = Ok y) l ys.
Proof.
  revert ys. induction l as [|x l IH]; intros ys; cbn.
  - split; [intros [= <-]; constructor | intros F; now inversion F].
  - destruct (f x) as [y|e] eqn:E.
    + destruct (comprehension f l) as [ys'|e'].
      * split.
        -- intros [= <-]. constructor; [assumption | now apply IH].
        -- intros F. inversion F as [|? y' ? ys'' E' F']; subst.
           rewrite E in E'. injection E' as <-.
           apply IH in F'. now injection F' as <-.
      * split; [discriminate|].
        intros F. inversion F as [|? y' ? ys'' E' F']; subst.
        apply IH in F'. discriminate.
    + split; [discriminate|].
      intros F. inversion F; subst. congruence.
Qed.

Lemma comprehension_rejects {A B} (f : A -> result B) l :
  Exists (fun x => is_ok (f x) = false) l -> exists e, comprehension f l = Raise e.
Proof.
  induction l as [|x l IH]; intros X; inversion X as [? ? R | ? ? R]; subst; cbn.
  - destruct (f x) as [y|e]; [discriminate | now exists e].
  - destruct (f x) as [y|e]; [|now exists e].
    destruct (IH R) as [e ->]. now exists e.
Qed.

Lemma filter_nonempty_id (lines : list pystr) :
  ~ In [] lines ->
  filter (fun line => negb (Nat.eqb (List.length line) 0)) lines = lines.
Proof.
  induction lines as [|l lines IH]; intros N; cbn; [reflexivity|].
  destruct l as [|c l]; [exfalso; apply N; now left|].
  cbn. f_equal. apply IH. intros I. apply N. now right.
Qed.

Lemma split_app_sep sep a r :
  exists p pre, split sep (a ++ sep :: r) = (p :: pre) ++ split sep r.
Proof.
  induction a as [|c a [p [pre IH]]]; cbn [app split].
  - rewrite Z.eqb_refl. now exists [], [].
  - rewrite IH. destruct (c =? sep).
    + now exists [], (p :: pre).
    + now exists (c :: p), pre.
Qed.

Lemma split_blank_line sep a b : In [] (split sep (a ++ sep :: sep :: b)).
Proof.
  destruct (split_app_sep sep a (sep :: b)) as [p [pre ->]].
  apply in_or_app. right. cbn [split]. rewrite Z.eqb_refl. now left.
Qed.

(** C6, as amended.  For a successful index response the body is stripped
    and split by newline, and every line, an empty one too, is given to
    [json.loads]; when every line parses, [search_cc_index] returns the
    parsed values in the order of the response and prints nothing.  When
    moreover no line is empty, this is the reading of the specification
    applied to the stripped body. *)
Theorem search_cc_index_parses_every_line query index_name h resp records :
  requests_get h (index_request query index_name) = Ok resp ->
  ~ error_status resp ->
  Forall2 (fun line v => json_loads line = Ok v) (index_lines resp) records ->
  search_cc_index query index_name h =
    ([Get (index_request query index_name)], Ok records) /\
  (~ In [] (index_lines resp) ->
   spec_index_records (strip (text resp)) = Ok records).
Proof.
  intros G S F. apply comprehension_Forall2 in F. split.
  - unfold search_cc_index, SERVER. fold (index_request query index_name). run.
    rewrite G. cbn. rewrite (error_status_no _ S). cbn.
    unfold index_lines in F. rewrite F. reflexivity.
  - intros N. unfold spec_index_records.
    unfold index_lines in *. now rewrite filter_nonempty_id.
Qed.

(** C10.  Index parsing is all or nothing: for a successful index response
    in which [json.loads] rejects at least one line of the stripped body,
    [search_cc_index] prints one line and returns the empty list, whatever
    the other lines hold.  Where [json.loads] rejects the empty string, an
    empty body and a body with a blank line between records are such
    responses. *)
Theorem index_parsing_all_or_nothing query index_name h resp :
  requests_get h (index_request query index_name) = Ok resp ->
  ~ error_status resp ->
  Exists (fun line => is_ok (json_loads line) = false) (index_lines resp)
  \/ (is_ok (json_loads []) = false /\
      (strip (text resp) = [] \/
       exists a b, strip (text resp) = a ++ LF :: LF :: b)) ->
  exists line,
    search_cc_index query index_name h =
      ([Get (index_request query index_name); Print line], Ok []).
Proof.
  intros G S X.
  assert (X' : Exists (fun line => is_ok (json_loads line) = false) (index_lines resp)).
  { destruct X as [X | [E [B | [a [b B]]]]]; [assumption | |];
      apply Exists_exists; exists []; (split; [|assumption]);
      unfold index_lines; rewrite B; [now left | apply split_blank_line]. }
  destruct (comprehension_rejects _ _ X') as [e P].
  destruct (index_failure_outcome query index_name h e) as [line [_ R]].
  - now apply index_line_rejected with resp.
  - now exists line.
Qed.

(** *** Record fetch *)

Lemma scan_records_breaks stream e :
  stream_breaks stream e -> scan_records stream = Raise e.
Proof.
  induction 1 as [e rest | e rest | it rest e [ty [c [-> N]]] _ IH]; cbn [scan_records app].
  - reflexivity.
  - now rewrite pystr_eqb_refl.
  - now rewrite (pystr_eqb_neq _ _ N).
Qed.

Lemma scan_records_no_response stream :
  (forall content, ~ In (WarcRecord (lit "response") content) stream) ->
  scan_records stream = Ok None \/ exists e, scan_records stream = Raise e.
Proof.
  induction stream as [|it rest IH]; intros N; cbn [scan_records app].
  - now left.
  - destruct it as [ty content | e]; [|right; now exists e].
    destruct (pystr_eqb ty (lit "response")) eqn:E.
    + apply pystr_eqb_eq in E. subst ty. exfalso. apply (N content). now left.
    + apply IH. intros c I. apply (N c). now right.
Qed.

Lemma scan_records_first_response pre body post :
  Forall other_record pre ->
  scan_records (pre ++ WarcRecord (lit "response") (Ok body) :: post)
  = Ok (Some (decode_utf8_ignore body)).
Proof.
  induction 1 as [|it pre [ty [c [-> N]]] _ IH]; cbn [scan_records app].
  - now rewrite pystr_eqb_refl.
  - now rewrite (pystr_eqb_neq _ _ N).
Qed.

Lemma fetch_single_record_never_raises filename offset length h :
  is_ok (snd (fetch_single_record filename offset length h)) = true.
Proof.
  unfold fetch_single_record. run.
  destruct (requests_get h _) as [resp|e]; [|destruct e; reflexivity].
  destruct ((400 <=? status_code resp) && (status_code resp <? 600)); cbn;
    [reflexivity|].
  destruct (status_code resp =? 206); cbn; [|reflexivity].
  destruct (scan_records (raw resp)) as [c|e]; cbn;
    [reflexivity | destruct e; reflexivity].
Qed.

(** C5.  [fetch_single_record] returns [None] whenever the request raises,
    the status is not 206, the container holds no record tagged
    [response], or an exception occurs while the container is read; and for
    every filename, offset and length it returns, it does not raise. *)
Theorem fetch_single_record_absent filename offset length h :
  is_ok (snd (fetch_single_record filename offset length h)) = true /\
  (record_fetch_fails h (record_request filename offset length) ->
   snd (fetch_single_record filename offset length h) = Ok None).
Proof.
  split; [apply fetch_single_record_never_raises|].
  intros F. unfold fetch_single_record.
  fold (record_request filename offset length). run.
  destruct F as [e G | resp G S | resp G N | resp e G B]; rewrite G; cbn.
  - destruct e; reflexivity.
  - destruct ((400 <=? status_code resp) && (status_code resp <? 600)); cbn;
      [reflexivity|].
    destruct (Z.eqb_spec (status_code resp) 206); [contradiction|reflexivity].
  - destruct ((400 <=? status_code resp) && (status_code resp <? 600)); cbn;
      [reflexivity|].
    destruct (status_code resp =? 206); cbn; [|reflexivity].
    destruct (scan_records_no_response _ N) as [-> | [e ->]]; cbn;
      [reflexivity | destruct e; reflexivity].
  - destruct ((400 <=? status_code resp) && (status_code resp <? 600)); cbn;
      [reflexivity|].
    destruct (status_code resp =? 206); cbn; [|reflexivity].
    rewrite (scan_records_breaks _ _ B). cbn. destruct e; reflexivity.
Qed.

(** *** The UTF-8 decoder *)

Lemma utf8_step_consumes bs it n :
  utf8_step bs = Some (it, n) -> (1 <= n <= List.length bs)%nat.
Proof.
  unfold utf8_step.
  destruct bs as [|ch [|ch2 [|ch3 [|ch4 r]]]];
    repeat (match goal with
            | |- context [if ?c then _ else _] => destruct c
            end);
    intros E; inversion E; cbn; lia.
Qed.

Lemma utf8_items_fuel_irrelevant fuel1 :
  forall fuel2 bs,
    (List.length bs <= fuel1)%nat -> (List.length bs <= fuel2)%nat ->
    utf8_items_fuel fuel1 bs = utf8_items_fuel fuel2 bs.
Proof.
  induction fuel1 as [|fuel1 IH]; intros fuel2 bs L1 L2.
  - destruct bs; [|cbn in L1; lia]. destruct fuel2; reflexivity.
  - destruct fuel2 as [|fuel2].
    + destruct bs; [|cbn in L2; lia]. reflexivity.
    + cbn [utf8_items_fuel]. destruct (utf8_step bs) as [[it n]|] eqn:E; [|reflexivity].
      apply utf8_step_consumes in E. f_equal.
      apply IH; rewrite length_skipn; lia.
Qed.

Lemma utf8_items_fuel_enough fuel bs :
  (List.length bs <= fuel)%nat -> utf8_items_fuel fuel bs = utf8_items bs.
Proof. intros L. unfold utf8_items. now apply utf8_items_fuel_irrelevant. Qed.

Lemma utf8_items_unfold bs :
  utf8_items bs =
    match utf8_step bs with
    | None => []
    | Some (it, n) => it :: utf8_items (skipn n bs)
    end.
Proof.
  unfold utf8_items at 1. destruct bs as [|b r]; [reflexivity|].
  cbn [List.length utf8_items_fuel].
  destruct (utf8_step (b :: r)) as [[it n]|] eqn:E; [|reflexivity].
  apply utf8_step_consumes in E. cbn [List.length] in E. f_equal.
  apply utf8_items_fuel_enough. rewrite length_skipn. cbn [List.length]. lia.
Qed.

Lemma utf8_items_length bs : (List.length (utf8_items bs) <= List.length bs)%nat.
Proof.
  remember (List.length bs) as k eqn:K. revert bs K.
  induction k as [k IH] using lt_wf_ind. intros bs K.
  rewrite utf8_items_unfold.
  destruct (utf8_step bs) as [[it n]|] eqn:E; [|cbn; lia].
  apply utf8_step_consumes in E. cbn [List.length].
  specialize (IH (List.length (skipn n bs))).
  rewrite length_skipn in IH.
  specialize (IH ltac:(lia) (skipn n bs) ltac:(now rewrite length_skipn)).
  lia.
Qed.

Lemma decode_utf8_ignore_length bs :
  (List.length (decode_utf8_ignore bs) <= List.length bs)%nat.
Proof.
  apply Nat.le_trans with (List.length (utf8_items bs)); [|apply utf8_items_length].
  unfold decode_utf8_ignore.
  induction (utf8_items bs) as [|[c|n] l IH]; cbn; lia.
Qed.

Lemma decode_utf8_replace_counts bs :
  List.length (decode_utf8_replace bs)
  = (List.length (decode_utf8_ignore bs) + error_ranges bs)%nat.
Proof.
  unfold decode_utf8_replace, decode_utf8_ignore, error_ranges.
  induction (utf8_items bs) as [|[c|n] l IH]; cbn; lia.
Qed.

Lemma decode_utf8_ignore_ascii bs :
  Forall (fun b => 0 <= b < 128) bs -> decode_utf8_ignore bs = bs.
Proof.
  induction 1 as [|b r B _ IH]; [reflexivity|].
  unfold decode_utf8_ignore in *. rewrite utf8_items_unfold.
  cbn [utf8_step]. destruct (Z.ltb_spec b 128); [|lia].
  cbn [skipn flat_map app]. now rewrite IH.
Qed.

Lemma decode_utf8_well_formed bs :
  error_ranges bs = 0%nat -> decode_utf8_ignore bs = decode_utf8_replace bs.
Proof.
  unfold decode_utf8_replace, decode_utf8_ignore, error_ranges.
  induction (utf8_items bs) as [|[c|n] l IH]; cbn; intros E.
  - reflexivity.
  - now rewrite IH.
  - discriminate.
Qed.

(** C2, as amended.  When the answer has status 206 and its first record
    tagged [response] is reached and read, [fetch_single_record] returns the
    body of that record decoded as UTF-8 with the undecodable bytes dropped:
    the decoding is defined for every byte sequence, keeps ASCII text as it
    is, and leaves out each error range that a replacing decoder would turn
    into U+FFFD. *)
Theorem fetch_single_record_decodes_dropping filename offset length h resp pre body post :
  requests_get h (record_request filename offset length) = Ok resp ->
  status_code resp = 206 ->
  raw resp = pre ++ WarcRecord (lit "response") (Ok body) :: post ->
  Forall other_record pre ->
  fetch_single_record filename offset length h =
    ([Get (record_request filename offset length)], Ok (Some (decode_utf8_ignore body))) /\
  (List.length (decode_utf8_ignore body) <= List.length body)%nat /\
  (Forall (fun b => 0 <= b < 128) body -> decode_utf8_ignore body = body) /\
  List.length (decode_utf8_replace body)
  = (List.length (decode_utf8_ignore body) + error_ranges body)%nat.
Proof.
  intros G S R P. repeat split.
  - unfold fetch_single_record. fold (record_request filename offset length). run.
    rewrite G. cbn. rewrite S. cbn. rewrite R.
    now rewrite (scan_records_first_response _ _ _ P).
  - apply decode_utf8_ignore_length.
  - apply decode_utf8_ignore_ascii.
  - apply decode_utf8_replace_counts.
Qed.

(** *** The byte range *)

Lemma unlit_lit s : unlit (lit s) = s.
Proof.
  unfold unlit, lit. rewrite map_map.
  rewrite <- (string_of_list_ascii_of_string s) at 2. f_equal.
  induction (list_ascii_of_string s) as [|a l IH]; cbn [map]; [reflexivity|].
  now rewrite Nat2Z.id, ascii_nat_embedding, IH.
Qed.

Lemma lit_cons a s : lit (String a s) = Z.of_nat (nat_of_ascii a) :: lit s.
Proof. reflexivity. Qed.

Lemma string_of_uint_digits u : Forall digit (lit (NilEmpty.string_of_uint u)).
Proof.
  induction u; cbn [NilEmpty.string_of_uint];
    [constructor | rewrite lit_cons; constructor; [unfold digit; cbn; lia | assumption] ..].
Qed.

Lemma str_int_digits n : 0 <= n -> Forall digit (str_int n).
Proof.
  intros N. unfold str_int. destruct n as [|p|p]; [| |lia].
  - cbn. constructor; [unfold digit; lia | constructor].
  - cbn [Z.to_int NilZero.string_of_int]. unfold NilZero.string_of_uint.
    pose proof (Unsigned.to_uint_nonnil p) as NN.
    destruct (Pos.to_uint p) eqn:E; [congruence | rewrite <- E; apply string_of_uint_digits ..].
Qed.

Lemma int_of_decimal_str_int n : 0 <= n -> int_of_decimal (str_int n) = Ok n.
Proof.
  intros N. unfold int_of_decimal.
  replace (forallb _ (str_int n)) with true.
  - unfold str_int. rewrite unlit_lit, NilZero.isi.
    + now rewrite DecimalZ.of_to.
    + destruct n; cbn; try discriminate.
      intros [= E]. now apply Unsigned.to_uint_nonnil in E.
    + destruct n; cbn; try discriminate.
      intros [= E]. now apply Unsigned.to_uint_nonnil in E.
  - symmetry. apply forallb_forall. intros c I.
    pose proof (str_int_digits n N) as D. rewrite Forall_forall in D.
    specialize (D c I). unfold digit in D. lia.
Qed.

Lemma strip_prefix_app prefix s : strip_prefix prefix (prefix ++ s) = Some s.
Proof.
  induction prefix as [|p prefix IH]; cbn; [reflexivity|].
  now rewrite Z.eqb_refl.
Qed.

Lemma split_without sep a : ~ In sep a -> split sep a = [a].
Proof.
  induction a as [|c a IH]; intros N; cbn [split]; [reflexivity|].
  destruct (Z.eqb_spec c sep) as [->|_]; [exfalso; apply N; now left|].
  rewrite IH; [reflexivity|]. intros I. apply N. now right.
Qed.

Lemma split_two sep a b :
  ~ In sep a -> ~ In sep b -> split sep (a ++ sep :: b) = [a; b].
Proof.
  intros A B. induction a as [|c a IH]; cbn [app split].
  - rewrite Z.eqb_refl. now rewrite split_without.
  - destruct (Z.eqb_spec c sep) as [->|_]; [exfalso; apply A; now left|].
    rewrite IH; [reflexivity|]. intros I. apply A. now right.
Qed.

Lemma digits_no_hyphen s : Forall digit s -> ~ In HYPHEN s.
Proof.
  intros D I. rewrite Forall_forall in D. specialize (D _ I).
  unfold digit, HYPHEN in D. lia.
Qed.

Lemma parse_byte_range_bytes first last :
  0 <= first -> 0 <= last ->
  parse_byte_range (lit "bytes=" ++ str_int first ++ lit "-" ++ str_int last)
  = Some (first, last).
Proof.
  intros F L. unfold parse_byte_range. rewrite strip_prefix_app.
  change (lit "-" ++ str_int last) with (HYPHEN :: str_int last).
  rewrite split_two by (apply digits_no_hyphen; now apply str_int_digits).
  now rewrite !int_of_decimal_str_int.
Qed.

(** C7.  For an offset that is not negative and a positive length,
    [fetch_single_record] sends one request, to
    [https://data.commoncrawl.org/{filename}], with the header [Range] set to
    [bytes=offset-(offset+length-1)]: read back, the header is the inclusive
    range from [offset] to [offset+length-1], which holds [length] bytes. *)
Theorem fetch_single_record_requests_range filename offset length h :
  0 <= offset -> 0 < length ->
  exists value rest,
    fst (fetch_single_record filename offset length h) =
      Get (mkRequest (lit "https://data.commoncrawl.org/" ++ filename)
                     [(lit "Range", value)] true 30) :: rest /\
    existsb is_get rest = false /\
    value = lit "bytes=" ++ str_int offset ++ lit "-" ++ str_int (offset + length - 1) /\
    parse_byte_range value = Some (offset, offset + length - 1) /\
    (offset + length - 1) - offset + 1 = length.
Proof.
  intros O L.
  exists (lit "bytes=" ++ str_int offset ++ lit "-" ++ str_int (offset + length - 1)).
  assert (R : exists rest,
             fst (fetch_single_record filename offset length h) =
               Get (record_request filename offset length) :: rest /\
             existsb is_get rest = false).
  { unfold fetch_single_record. fold (record_request filename offset length). run.
    destruct (requests_get h _) as [resp|e];
      [|destruct e; eexists; split; reflexivity].
    cbn. destruct ((400 <=? status_code resp) && (status_code resp <? 600)); cbn;
      [eexists; split; reflexivity|].
    destruct (status_code resp =? 206); cbn; [|eexists; split; reflexivity].
    destruct (scan_records (raw resp)) as [c|e]; cbn;
      [|destruct e]; eexists; split; reflexivity. }
  destruct R as [rest [E G]]. exists rest.
  repeat split; [exact E | exact G | | lia].
  apply parse_byte_range_bytes; lia.
Qed.

(** *** Content processor *)

Lemma node_induction (P : node -> Prop) :
  (forall cls s, P (Str cls s)) ->
  (forall name attrs contents, Forall P contents -> P (Tag name attrs contents)) ->
  forall n, P n.
Proof.
  intros HS HT. fix IH 1. intros [cls s | name attrs contents]; [apply HS | apply HT].
  induction contents as [|k r IHr]; constructor; [apply IH | exact IHr].
Qed.

Lemma first_some_none {A B} (f : A -> option B) l :
  first_some f l = None <-> Forall (fun x => f x = None) l.
Proof.
  induction l as [|x l IH]; cbn.
  - split; [constructor | reflexivity].
  - destruct (f x) eqn:E.
    + split; [discriminate | intros F; inversion F; congruence].
    + rewrite IH. split; [now constructor | intros F; now inversion F].
Qed.

Lemma find_tag_none p n :
  find_tag p n = None <->
  forall name attrs, In (name, attrs) (tags_of n) -> p name attrs = false.
Proof.
  induction n as [cls s | name attrs contents IH] using node_induction;
    cbn [find_tag tags_of].
  - split; [intros _ ? ? [] | reflexivity].
  - destruct (p name attrs) eqn:E.
    + split; [discriminate|]. intros N. rewrite (N name attrs) in E; [discriminate | now left].
    + rewrite first_some_none. split.
      * intros F name' attrs' [[= <- <-] | I]; [assumption|].
        apply in_flat_map in I. destruct I as [k [K I]].
        rewrite Forall_forall in IH, F.
        exact (proj1 (IH k K) (F k K) _ _ I).
      * intros N. apply Forall_forall. intros k K.
        rewrite Forall_forall in IH. apply (IH k K).
        intros name' attrs' I. apply N. right.
        apply in_flat_map. now exists k.
Qed.

Lemma find_none p contents : find p contents = None <-> no_element p contents.
Proof.
  unfold find, no_element. rewrite first_some_none, Forall_forall. split.
  - intros F name attrs I. apply in_flat_map in I. destruct I as [k [K I]].
    exact (proj1 (find_tag_none p k) (F k K) _ _ I).
  - intros N k K. apply find_tag_none. intros name attrs I.
    apply N. apply in_flat_map. now exists k.
Qed.

(** C9.  For a parsed document: without a [title] element the title line
    carries the fallback label; without a [meta] element of property
    [og:url] the URL line carries the fallback label and the report is
    complete; an excerpt line never holds more than 1000 characters, and a
    complete report has one, the first 1000 characters of the text. *)
Theorem process_content_report content query h soup :
  BeautifulSoup content = Ok soup ->
  (no_element named_title soup ->
   nth_error (fst (process_content content query h)) 1
   = Some (Print [FLit "Заголовок страницы: "; FLit "Без заголовка"])) /\
  (no_element meta_og_url soup ->
   nth_error (fst (process_content content query h)) 2
   = Some (Print [FLit "URL: "; FLit "Неизвестно"]) /\
   snd (process_content content query h) = Ok tt) /\
  (forall s, In (Print [FStr s]) (fst (process_content content query h)) ->
             (List.length s <= 1000)%nat) /\
  (snd (process_content content query h) = Ok tt ->
   nth_error (fst (process_content content query h)) 4
   = Some (Print [FStr (firstn 1000 (get_text false soup))])).
Proof.
  intros B. unfold process_content. run. rewrite B. cbn -[firstn].
  pose proof (firstn_le_length 1000 (get_text false soup)) as L.
  remember (firstn 1000 (get_text false soup)) as excerpt eqn:X.
  repeat split.
  - intros N. apply find_none in N. rewrite N.
    destruct (find meta_og_url soup) as [t|]; cbn;
      [destruct (tag_getitem t _); reflexivity | reflexivity].
  - apply find_none in H. rewrite H. reflexivity.
  - apply find_none in H. rewrite H. reflexivity.
  - intros s I.
    destruct (find meta_og_url soup) as [t|]; cbn in I;
      [destruct (tag_getitem t _); cbn in I|];
      repeat (destruct I as [I | I]; [try discriminate|]);
      try contradiction;
      injection I as <-; exact L.
  - destruct (find meta_og_url soup) as [t|]; cbn;
      [destruct (tag_getitem t _); cbn; [reflexivity | discriminate] | reflexivity].
Qed.

(** C1 fails on the code.  When the document has a [meta] element of
    property [og:url] without a [content] attribute, [process_content]
    raises [KeyError] after the title line: the URL line, the excerpt and
    the closing line are not printed. *)
Theorem process_content_meta_without_content content query h soup name attrs contents :
  BeautifulSoup content = Ok soup ->
  find meta_og_url soup = Some (Tag name attrs contents) ->
  dict_lookup (lit "content") attrs = None ->
  snd (process_content content query h) = Raise (OtherError "KeyError") /\
  List.length (fst (process_content content query h)) = 2%nat.
Proof.
  intros B F A. unfold process_content. run. rewrite B. cbn -[lit firstn].
  rewrite F. cbn [tag_getitem]. rewrite A. split; reflexivity.
Qed.

(** *** Driver *)

Lemma for_each_app {A} (body : A -> io unit) l1 l2 :
  forall h,
    for_each body (l1 ++ l2) h =
      match for_each body l1 h with
      | (e1, Ok _) => let (e2, r) := for_each body l2 (h ++ e1) in (e1 ++ e2, r)
      | (e1, Raise e) => (e1, Raise e)
      end.
Proof.
  induction l1 as [|x l1 IH]; intros h; cbn [app for_each].
  - unfold ret. rewrite app_nil_r. now destruct (for_each body l2 h).
  - unfold bind. destruct (body x h) as [ev [a|e]]; [|reflexivity].
    rewrite IH. destruct (for_each body l1 (h ++ ev)) as [e1 [u|e]]; [|reflexivity].
    rewrite <- app_assoc.
    destruct (for_each body l2 (h ++ ev ++ e1)) as [e2 r].
    now rewrite app_assoc.
Qed.

Lemma for_each_ok {A} (body : A -> io unit) l :
  (forall x h, In x l -> is_ok (snd (body x h)) = true) ->
  forall h, is_ok (snd (for_each body l h)) = true.
Proof.
  induction l as [|x l IH]; intros B h; cbn [for_each]; [reflexivity|].
  unfold bind. pose proof (B x h (or_introl eq_refl)) as X.
  destruct (body x h) as [ev [a|e]]; [|discriminate].
  specialize (IH (fun y h' I => B y h' (or_intror I)) (h ++ ev)).
  now destruct (for_each body l (h ++ ev)) as [ev' r].
Qed.

Lemma record_body_incomplete query record h :
  incomplete_record record ->
  record_body query record h = ([incomplete_line record; Sleep 1], Ok tt).
Proof.
  intros [items [f [o [l [E [F [O [L T]]]]]]]]. unfold record_body. run.
  rewrite F, O, L.
  replace (truthy f && truthy o && truthy l) with false; [reflexivity|].
  destruct T as [T | [T | T]]; rewrite T;
    [reflexivity | now rewrite andb_false_r | now rewrite andb_false_r].
Qed.

(** C8.  In the loop over the first five records of a query, a record with
    its filename, offset or length missing or falsy (a numeric zero too)
    sends no request: once the records before it are done, the driver
    prints the line that shows the record, sleeps, and goes on with the
    records after it. *)
Theorem incomplete_record_skipped index_name query h e0 records pre record post evs :
  search_cc_index query index_name (h ++ [searching_line query]) = (e0, Ok records) ->
  firstn 5 records = pre ++ record :: post ->
  incomplete_record record ->
  for_each (record_body query) pre
           (h ++ searching_line query :: e0 ++ [found_line records query])
  = (evs, Ok tt) ->
  exists evs' r,
    for_each (record_body query) post
             (h ++ searching_line query :: e0 ++ [found_line records query]
                ++ evs ++ [incomplete_line record; Sleep 1])
    = (evs', r) /\
    query_body index_name query h =
      (searching_line query :: e0 ++ [found_line records query]
         ++ evs ++ [incomplete_line record; Sleep 1] ++ evs', r).
Proof.
  intros S R I P.
  destruct (for_each (record_body query) post
              (h ++ searching_line query :: e0 ++ [found_line records query]
                 ++ evs ++ [incomplete_line record; Sleep 1])) as [evs' r] eqn:Q.
  exists evs', r. split; [reflexivity|].
  unfold query_body. run. fold (searching_line query). rewrite S. cbn [fst snd app].
  destruct records as [|r0 rs]; [destruct pre; discriminate|].
  fold (found_line (r0 :: rs) query). rewrite R.
  assert (H1 : ((h ++ [searching_line query]) ++ e0) ++ [found_line (r0 :: rs) query]
               = h ++ searching_line query :: e0 ++ [found_line (r0 :: rs) query])
    by (now rewrite <- !app_assoc).
  rewrite H1, for_each_app, P. cbn [for_each]. unfold bind at 1.
  rewrite (record_body_incomplete _ _ _ I).
  assert (H2 : ((h ++ searching_line query :: e0 ++ [found_line (r0 :: rs) query]) ++ evs)
                 ++ [incomplete_line record; Sleep 1]
               = h ++ searching_line query :: e0 ++ [found_line (r0 :: rs) query]
                   ++ evs ++ [incomplete_line record; Sleep 1])
    by (repeat (rewrite <- app_assoc; cbn [app]); reflexivity).
  cbn [app] in H2, Q. rewrite H2, Q. cbn [app]. repeat (rewrite <- app_assoc; cbn [app]). reflexivity.
Qed.

Lemma In_firstn {A} (x : A) n :
  forall l, In x (firstn n l) -> In x l.
Proof.
  induction n as [|n IH]; intros [|y l]; cbn; try tauto.
  intros [E | I]; [now left | right; now apply IH].
Qed.

Lemma Forall2_results {A B} (f : A -> result B) l ys :
  Forall2 (fun x y => f x = Ok y) l ys -> Forall (fun y => exists x, f x = Ok y) ys.
Proof. induction 1; constructor; [eauto | assumption]. Qed.

Lemma search_cc_index_records query index_name h ev records :
  search_cc_index query index_name h = (ev, Ok records) ->
  Forall (fun v => exists line, json_loads line = Ok v) records.
Proof.
  unfold search_cc_index. run.
  destruct (requests_get h _) as [resp|e]; cbn.
  - destruct ((400 <=? status_code resp) && (status_code resp <? 600)); cbn.
    + intros [= _ <-]. constructor.
    + destruct (comprehension json_loads _) as [parsed|e] eqn:P; cbn.
      * intros [= _ <-]. apply comprehension_Forall2 in P.
        now apply Forall2_results in P.
      * destruct e; intros [= _ <-]; constructor.
  - destruct e; intros [= _ <-]; constructor.
Qed.

Lemma py_get_dict items key : exists v, py_get (JDict items) key = Ok v.
Proof. cbn. destruct (dict_lookup key items); eauto. Qed.

Lemma record_body_ok query v h :
  usable_record v ->
  (forall content q h', is_ok (snd (process_content content q h')) = true) ->
  is_ok (snd (record_body query v h)) = true.
Proof.
  intros [items [-> U]] PC.
  destruct (py_get_dict items (lit "filename")) as [f F].
  destruct (py_get_dict items (lit "offset")) as [o O].
  destruct (py_get_dict items (lit "length")) as [l L].
  specialize (U f o l F O L).
  unfold record_body. run. rewrite F, O, L.
  destruct (truthy f && truthy o && truthy l); [|reflexivity].
  destruct (U eq_refl) as [Io Il].
  destruct (py_int o) as [n|]; [|discriminate].
  destruct (py_int l) as [m|]; [|discriminate].
  match goal with
  | |- context [fetch_single_record ?a ?b ?c ?d] =>
      pose proof (fetch_single_record_never_raises a b c d) as FR;
      destruct (fetch_single_record a b c d) as [ev [content|e]]
  end; [|discriminate].
  destruct content as [[|c html]|]; try reflexivity.
  match goal with
  | |- context [process_content ?a ?b ?c] =>
      pose proof (PC a b c) as X; destruct (process_content a b c) as [ev' [u|e]]
  end; [reflexivity | discriminate].
Qed.

Lemma query_body_ok index_name query h :
  (forall line v, json_loads line = Ok v -> usable_record v) ->
  (forall content q h', is_ok (snd (process_content content q h')) = true) ->
  is_ok (snd (query_body index_name query h)) = true.
Proof.
  intros U PC. unfold query_body. run.
  pose proof (search_cc_index_never_raises query index_name (h ++ [Print [FNl; FLit "Поиск по запросу: "; FStr query]])) as N.
  destruct (search_cc_index query index_name _) as [ev [records|e]] eqn:S;
    [|discriminate].
  apply search_cc_index_records in S.
  destruct records as [|r0 rs]; [reflexivity|].
  match goal with
  | |- context [for_each ?b ?l ?hh] =>
      pose proof (for_each_ok b l) as X; specialize (fun B => X B hh);
      destruct (for_each b l hh) as [ev' r']
  end.
  cbn [fst snd] in *. apply X. intros x h' I.
  apply record_body_ok; [|assumption].
  rewrite Forall_forall in S. destruct (S x) as [line J]; [|now apply (U line)].
  now apply In_firstn in I.
Qed.

(** C3, as amended.  When every value that [json.loads] gives is a JSON
    object whose offset and length are accepted by [int] (where filename,
    offset and length are all truthy), and [process_content] does not
    raise, the driver runs through every record, query and group and no
    exception escapes it. *)
Theorem driver_continues queries index_name h :
  (forall line v, json_loads line = Ok v -> usable_record v) ->
  (forall content query h', is_ok (snd (process_content content query h')) = true) ->
  snd (search_and_print_results queries index_name h) = Ok tt.
Proof.
  intros U PC.
  assert (K : is_ok (snd (search_and_print_results queries index_name h)) = true).
  { unfold search_and_print_results. apply for_each_ok.
    intros [group_name query_list] h' _. unfold group_body. run.
    match goal with
    | |- context [for_each ?b ?l ?hh] =>
        pose proof (for_each_ok b l) as X; specialize (fun B => X B hh);
        destruct (for_each b l hh) as [ev' [u|e]]
    end; [reflexivity|].
    cbn [fst snd] in X. apply X. intros q h'' _. now apply query_body_ok. }
  destruct (snd (search_and_print_results queries index_name h)) as [[]|e];
    [reflexivity | discriminate].
Qed.

End Script.

(** ** Worked scenarios *)

Example split_keeps_empty_pieces :
  split LF (lit "a" ++ [LF; LF] ++ lit "b") = [lit "a"; []; lit "b"]
  /\ split LF [] = [[]].
Proof. split; reflexivity. Qed.

Example str_int_decimal : str_int 1234 = lit "1234" /\ str_int 0 = lit "0".
Proof. split; reflexivity. Qed.

Example strip_removes_outer_whitespace :
  strip ([32; 10] ++ lit "a b" ++ [13; 10]) = lit "a b".
Proof. reflexivity. Qed.

(** The end-to-end scenario of the specification: one index record that
    points to a container with one response record, the test page. *)
Example end_to_end :
  let run :=
    search_and_print_results quote_plus_unreserved
      (network (index_response good_line) (archive_response test_page_bytes))
      sample_loads int_of_decimal repr_unused sample_parser
      [(lit "group", [lit "pstu.ru"])] INDEX_NAME [] in
  snd run = Ok tt
  /\ In (Print [FLit "Заголовок страницы: "; FStr (lit "Test")]) (fst run)
  /\ In (Print [FLit "URL: "; FStr (lit "http://x")]) (fst run)
  /\ In (Print [FStr (lit "TestHello world")]) (fst run)
  /\ List.length (filter is_get (fst run)) = 2%nat.
Proof. vm_compute. intuition. Qed.

(** *** Index query *)

Lemma search_cc_index_fails_open_witness :
  index_request_fails (always (Raise Timeout)) sample_loads []
    (index_request quote_plus_unreserved (lit "pstu.ru") INDEX_NAME) Timeout
  /\ exists line,
      In (FStr (lit "pstu.ru")) line /\
      search_cc_index quote_plus_unreserved (always (Raise Timeout)) sample_loads
        (lit "pstu.ru") INDEX_NAME []
      = ([Get (index_request quote_plus_unreserved (lit "pstu.ru") INDEX_NAME); Print line],
         Ok []).
Proof.
  assert (F : index_request_fails (always (Raise Timeout)) sample_loads []
                (index_request quote_plus_unreserved (lit "pstu.ru") INDEX_NAME) Timeout)
    by (apply index_get_raises; reflexivity).
  split; [exact F|].
  exact (proj2 (search_cc_index_fails_open quote_plus_unreserved (always (Raise Timeout))
                  sample_loads (lit "pstu.ru") INDEX_NAME []) Timeout F).
Defined.

Lemma search_cc_index_parses_every_line_witness :
  search_cc_index quote_plus_unreserved
    (always (index_response (good_line ++ [LF] ++ zero_line))) sample_loads
    (lit "pstu.ru") INDEX_NAME []
  = ([Get (index_request quote_plus_unreserved (lit "pstu.ru") INDEX_NAME)],
     Ok [good_record; zero_record])
  /\ spec_index_records sample_loads (strip (good_line ++ [LF] ++ zero_line))
     = Ok [good_record; zero_record].
Proof.
  destruct (search_cc_index_parses_every_line quote_plus_unreserved
              (always (index_response (good_line ++ [LF] ++ zero_line))) sample_loads
              (lit "pstu.ru") INDEX_NAME []
              (mkResponse 200 (good_line ++ [LF] ++ zero_line) [])
              [good_record; zero_record]) as [A B].
  - reflexivity.
  - unfold error_status. cbn. lia.
  - vm_compute. constructor; [reflexivity|].
    constructor; [reflexivity | constructor].
  - split; [exact A|]. apply B. vm_compute. intuition discriminate.
Defined.

(** C6 fails on the code: two records with a blank line between them.  The
    specification reads two records; the code gives the blank line to
    [json.loads], which rejects it, and returns the empty list. *)
Lemma blank_line_discards_records :
  snd (search_cc_index quote_plus_unreserved (always (index_response blank_line_body))
         sample_loads (lit "pstu.ru") INDEX_NAME [])
  = Ok []
  /\ spec_index_records sample_loads blank_line_body = Ok [good_record; good_record].
Proof. split; vm_compute; reflexivity. Qed.

Lemma index_parsing_all_or_nothing_witness :
  is_ok (sample_loads []) = false
  /\ strip blank_line_body = good_line ++ LF :: LF :: good_line
  /\ exists line,
      search_cc_index quote_plus_unreserved (always (index_response blank_line_body))
        sample_loads (lit "pstu.ru") INDEX_NAME []
      = ([Get (index_request quote_plus_unreserved (lit "pstu.ru") INDEX_NAME); Print line],
         Ok []).
Proof.
  split; [reflexivity|]. split; [reflexivity|].
  apply (index_parsing_all_or_nothing quote_plus_unreserved
           (always (index_response blank_line_body)) sample_loads
           (lit "pstu.ru") INDEX_NAME [] (mkResponse 200 blank_line_body [])).
  - reflexivity.
  - unfold error_status. cbn. lia.
  - right. split; [reflexivity|]. right. exists good_line, good_line. reflexivity.
Defined.

(** *** Record fetch *)

Lemma fetch_single_record_absent_witness :
  record_fetch_fails (always (Ok (mkResponse 200 [] []))) []
    (record_request (lit warc_name) 1000 500)
  /\ snd (fetch_single_record (always (Ok (mkResponse 200 [] []))) (lit warc_name) 1000 500 [])
     = Ok None.
Proof.
  assert (F : record_fetch_fails (always (Ok (mkResponse 200 [] []))) []
                (record_request (lit warc_name) 1000 500))
    by (apply fetch_not_206 with (resp := mkResponse 200 [] []);
        [reflexivity | cbn; discriminate]).
  split; [exact F|].
  exact (proj2 (fetch_single_record_absent (always (Ok (mkResponse 200 [] [])))
                  (lit warc_name) 1000 500 []) F).
Defined.

Lemma fetch_single_record_requests_range_witness :
  exists value rest,
    fst (fetch_single_record (always (Raise Timeout)) (lit warc_name) 1000 500 []) =
      Get (mkRequest (lit "https://data.commoncrawl.org/" ++ lit warc_name)
                     [(lit "Range", value)] true 30) :: rest /\
    existsb is_get rest = false /\
    value = lit "bytes=" ++ str_int 1000 ++ lit "-" ++ str_int (1000 + 500 - 1) /\
    parse_byte_range value = Some (1000, 1000 + 500 - 1) /\
    (1000 + 500 - 1) - 1000 + 1 = 500.
Proof.
  apply (fetch_single_record_requests_range (always (Raise Timeout)) (lit warc_name) 1000 500 []);
    lia.
Defined.

Lemma warcinfo_is_other_record content :
  other_record (WarcRecord (lit "warcinfo") content).
Proof. exists (lit "warcinfo"), content. split; [reflexivity|]. vm_compute. discriminate. Qed.

Lemma fetch_single_record_decodes_dropping_witness :
  fetch_single_record (always (archive_response broken_body)) (lit warc_name) 1000 3 []
  = ([Get (record_request (lit warc_name) 1000 3)], Ok (Some (lit "ab")))
  /\ error_ranges broken_body = 1%nat.
Proof.
  destruct (fetch_single_record_decodes_dropping (always (archive_response broken_body))
              (lit warc_name) 1000 3 []
              (mkResponse 206 [] [WarcRecord (lit "warcinfo") (Ok []);
                                  WarcRecord (lit "response") (Ok broken_body)])
              [WarcRecord (lit "warcinfo") (Ok [])] broken_body [])
    as [A _].
  - reflexivity.
  - reflexivity.
  - reflexivity.
  - constructor; [apply warcinfo_is_other_record | constructor].
  - split; [exact A | reflexivity].
Defined.

(** C2 fails on the code: a body with a byte that is not UTF-8.  A decoder
    that replaces gives U+FFFD for the byte; the code returns the text
    without it. *)
Lemma fetch_single_record_does_not_replace :
  snd (fetch_single_record (always (archive_response broken_body)) (lit warc_name) 1000 3 [])
  = Ok (Some (lit "ab"))
  /\ decode_utf8_replace broken_body = [0x61; REPLACEMENT_CHARACTER; 0x62]
  /\ snd (fetch_single_record (always (archive_response broken_body)) (lit warc_name) 1000 3 [])
     <> Ok (Some (decode_utf8_replace broken_body)).
Proof. repeat split; vm_compute; try reflexivity. discriminate. Qed.

(** *** Content processor *)

Lemma no_element_in_text p (s : pystr) : no_element p [Str NavigableString s].
Proof. intros name attrs []. Qed.

Lemma process_content_report_witness :
  soup_of_text (lit "Hello world") = Ok [Str NavigableString (lit "Hello world")]
  /\ nth_error (fst (process_content soup_of_text (lit "Hello world") (lit "pstu.ru") [])) 1
     = Some (Print [FLit "Заголовок страницы: "; FLit "Без заголовка"])
  /\ nth_error (fst (process_content soup_of_text (lit "Hello world") (lit "pstu.ru") [])) 2
     = Some (Print [FLit "URL: "; FLit "Неизвестно"])
  /\ nth_error (fst (process_content soup_of_text (lit "Hello world") (lit "pstu.ru") [])) 4
     = Some (Print [FStr (lit "Hello world")]).
Proof.
  destruct (process_content_report soup_of_text (lit "Hello world") (lit "pstu.ru") []
              [Str NavigableString (lit "Hello world")] eq_refl)
    as [T [U [_ E]]].
  split; [reflexivity|].
  split; [apply T, no_element_in_text|].
  destruct (U (no_element_in_text _ _)) as [U2 K].
  split; [exact U2|].
  rewrite (E K). reflexivity.
Defined.

Lemma process_content_meta_without_content_witness :
  sample_parser bare_meta_page = Ok bare_meta_soup
  /\ snd (process_content sample_parser bare_meta_page (lit "pstu.ru") [])
     = Raise (OtherError "KeyError")
  /\ List.length (fst (process_content sample_parser bare_meta_page (lit "pstu.ru") []))
     = 2%nat.
Proof.
  split; [reflexivity|].
  apply (process_content_meta_without_content sample_parser bare_meta_page (lit "pstu.ru") []
           bare_meta_soup (lit "meta") [(lit "property", lit "og:url")] []);
    reflexivity.
Defined.

(** *** Driver *)

Lemma test_parser_never_raises content query h :
  is_ok (snd (process_content test_parser content query h)) = true.
Proof.
  unfold process_content, test_parser, soup_from, lift, bind.
  cbn [dict_lookup]. destruct (pystr_eqb test_page content).
  - vm_compute. reflexivity.
  - unfold soup_of_text. cbn -[firstn]. reflexivity.
Qed.

Lemma good_record_usable line v :
  loads_from [(good_line, good_record)] line = Ok v -> usable_record int_of_decimal v.
Proof.
  unfold loads_from. cbn [dict_lookup].
  destruct (pystr_eqb good_line line); [|discriminate].
  intros [= <-]. eexists. split; [reflexivity|].
  intros f o l F O L _.
  vm_compute in F, O, L.
  injection O as <-. injection L as <-.
  split; vm_compute; reflexivity.
Qed.

Lemma zero_record_incomplete : incomplete_record zero_record.
Proof.
  exists [(lit "filename", JStr (lit warc_name)); (lit "offset", JInt 0);
          (lit "length", JInt 500)],
    (JStr (lit warc_name)), (JInt 0), (JInt 500).
  repeat split. right. left. reflexivity.
Qed.

Lemma incomplete_record_skipped_witness :
  incomplete_record zero_record
  /\ query_body quote_plus_unreserved (always (index_response zero_line)) sample_loads
       int_of_decimal repr_unused sample_parser INDEX_NAME (lit "pstu.ru") []
     = ([searching_line (lit "pstu.ru");
         Get (index_request quote_plus_unreserved (lit "pstu.ru") INDEX_NAME);
         found_line [zero_record] (lit "pstu.ru");
         incomplete_line zero_record;
         Sleep 1],
        Ok tt).
Proof.
  split; [exact zero_record_incomplete|].
  destruct (incomplete_record_skipped quote_plus_unreserved
              (always (index_response zero_line)) sample_loads
              int_of_decimal repr_unused sample_parser INDEX_NAME (lit "pstu.ru") []
              [Get (index_request quote_plus_unreserved (lit "pstu.ru") INDEX_NAME)]
              [zero_record] [] zero_record [] [])
    as [evs' [r [Q E]]].
  - reflexivity.
  - reflexivity.
  - exact zero_record_incomplete.
  - reflexivity.
  - cbn [for_each] in Q. injection Q as <- <-. exact E.
Defined.

Lemma driver_continues_witness :
  snd (search_and_print_results quote_plus_unreserved
         (network (index_response good_line) (archive_response test_page_bytes))
         (loads_from [(good_line, good_record)]) int_of_decimal repr_unused test_parser
         [(lit "group", [lit "pstu.ru"; lit "perm.ru"])] INDEX_NAME [])
  = Ok tt.
Proof.
  apply (driver_continues quote_plus_unreserved
           (network (index_response good_line) (archive_response test_page_bytes))
           (loads_from [(good_line, good_record)]) int_of_decimal repr_unused test_parser).
  - exact good_record_usable.
  - exact test_parser_never_raises.
Defined.

(** C3 fails on the code: an index record whose offset is the string [abc].
    [process_content] does not raise with this parser, and is not reached:
    [int] raises [ValueError] in the driver, which stops there. *)
Lemma driver_stops_on_non_numeric_offset :
  (forall content query h,
      is_ok (snd (process_content test_parser content query h)) = true)
  /\ search_and_print_results quote_plus_unreserved
       (network (index_response bad_line) (archive_response test_page_bytes))
       sample_loads int_of_decimal repr_unused test_parser
       [(lit "group", [lit "pstu.ru"; lit "perm.ru"])] INDEX_NAME []
     = ([Print [FNl; FLit "=== Поиск для группы: "; FStr (lit "group"); FLit " ==="; FNl];
         searching_line (lit "pstu.ru");
         Get (index_request quote_plus_unreserved (lit "pstu.ru") INDEX_NAME);
         found_line [bad_record] (lit "pstu.ru")],
        Raise (OtherError "ValueError")).
Proof. split; [exact test_parser_never_raises | vm_compute; reflexivity]. Qed.
